(** * smart-qa-portal: the question pipeline of [services.py] and [utils.py]

    A shallow embedding of the Python code that validates a question,
    derives its category and assembles the canned answer bundle, together
    with the properties the design document states about it.

    Python [str] values are sequences of Unicode code points; exceptions
    are values of [exn] carried by [result]; the calls to [logging] made
    by [utils.py] are collected as a list of log records. *)

From Stdlib Require Import String Ascii NArith ZArith List Lia Bool.
From Stdlib Require Import DecimalString.
From stdpp Require Import gmap list.

Set Default Proof Using "Type".

(** ** Python strings *)

Module Py.

(** A [str] is a sequence of code points. *)
Abbreviation str := (list N) (only parsing).

(** A literal of the source text (all of them are ASCII). *)
Definition lit (s : string) : str := map N_of_ascii (list_ascii_of_string s).
Arguments lit s%_string.

(** [Py_UNICODE_ISSPACE]: what [str.strip] strips and the regular
    expression class [\s] matches. *)
Definition isspace (c : N) : bool :=
  ((9 <=? c) && (c <=? 13) || (28 <=? c) && (c <=? 32)
   || (c =? 133) || (c =? 160) || (c =? 5760)
   || (8192 <=? c) && (c <=? 8202)
   || (c =? 8232) || (c =? 8233) || (c =? 8239) || (c =? 8287)
   || (c =? 12288))%N.

Fixpoint lstrip (s : str) : str :=
  match s with
  | [] => []
  | c :: s' => if isspace c then lstrip s' else s
  end.

Definition rstrip (s : str) : str := rev (lstrip (rev s)).

(** [s.strip()] *)
Definition strip (s : str) : str := rstrip (lstrip s).

(** The truth value of a [str]: [not s] holds exactly of the empty one. *)
Definition truthy (s : str) : bool :=
  match s with [] => false | _ :: _ => true end.

Fixpoint startswith (s prefix : str) {struct prefix} : bool :=
  match prefix, s with
  | [], _ => true
  | _ :: _, [] => false
  | p :: prefix', c :: s' => (p =? c)%N && startswith s' prefix'
  end.

(** [sub in s] *)
Fixpoint contains (s sub : str) : bool :=
  startswith s sub
  || match s with
     | [] => false
     | _ :: s' => contains s' sub
     end.

(** [s[:n]] for [0 <= n] *)
Definition slice_to (n : nat) (s : str) : str := take n s.

(** The Unicode character database of the interpreter, outside the
    ASCII range: the lower-casing of a string that is not pure ASCII,
    and the alphanumeric code points above 127. *)
Class UnicodeDB := {
  unicode_lower : str -> str;
  unicode_isalnum : N -> bool
}.

Definition isascii (s : str) : bool := forallb (fun c => (c <? 128)%N) s.

Definition ascii_lower (c : N) : N :=
  if ((65 <=? c) && (c <=? 90))%N then (c + 32)%N else c.

(** [s.lower()]: CPython lowers a pure-ASCII string character by
    character and consults the database for any other string. *)
Definition lower {db : UnicodeDB} (s : str) : str :=
  if isascii s then map ascii_lower s else unicode_lower s.

Definition ascii_isalnum (c : N) : bool :=
  ((48 <=? c) && (c <=? 57) || (65 <=? c) && (c <=? 90)
   || (97 <=? c) && (c <=? 122))%N.

(** [Py_UNICODE_ISALNUM] *)
Definition isalnum {db : UnicodeDB} (c : N) : bool :=
  if (c <? 128)%N then ascii_isalnum c else unicode_isalnum c.

(** Exceptions raised by the modelled code. [HTTPException] is
    FastAPI's; like every other constructor here it is a subclass of
    [Exception]. [ValidationError] is pydantic's. *)
Inductive exn :=
| HTTPException (status_code : Z) (detail : str)
| ValueError (msg : str)
| ValidationError (msg : str)
| IndexError (msg : str)
| AttributeError (msg : str).

(** [str(e)] of the exceptions whose text the code reads. Starlette
    prints an [HTTPException] as its status code and detail. *)
Definition exn_str (e : exn) : str :=
  match e with
  | HTTPException c d =>
      lit (NilZero.string_of_int (Z.to_int c)) ++ lit ": " ++ d
  | ValueError m | ValidationError m | IndexError m | AttributeError m => m
  end.

Inductive result (A : Type) :=
| Return (a : A)
| Raise (e : exn).
Arguments Return {A} a.
Arguments Raise {A} e.

(** Records handed to the [logging] module. *)
Inductive level := INFO | WARNING | ERROR.

Record log_record := {
  levelname : level;
  msg : str;
  args : list str
}.

(** A computation that logs: the records it emitted, in order, and how
    it ended. *)
Record logged (A : Type) := Logged {
  records : list log_record;
  outcome : result A
}.
Arguments Logged {A} records outcome.
Arguments records {A} l.
Arguments outcome {A} l.

#[export] Instance logged_ret : MRet logged := fun A a => Logged [] (Return a).

#[export] Instance logged_bind : MBind logged := fun A B k m =>
  match outcome m with
  | Return a => Logged (records m ++ records (k a)) (outcome (k a))
  | Raise e => Logged (records m) (Raise e)
  end.

Definition raise {A} (e : exn) : logged A := Logged [] (Raise e).

Definition lift {A} (r : result A) : logged A := Logged [] r.

Definition log (lvl : level) (msg : str) (args : list str) : logged unit :=
  Logged [{| levelname := lvl; msg := msg; args := args |}] (Return tt).

(** [try: body  except Exception as e: handler e] *)
Definition try_except {A} (body : logged A) (handler : exn -> logged A)
  : logged A :=
  match outcome body with
  | Return a => body
  | Raise e =>
      Logged (records body ++ records (handler e)) (outcome (handler e))
  end.

(** Values a caller can pass where the code inspects the type at run
    time. *)
Inductive object :=
| PyNone
| PyStr (s : str)
| PyInt (z : Z)
| PyDict (d : gmap str str).

End Py.

Import Py.

(** ** services.py *)

Module Services.

Record QuestionModel := {
  question : str;
  user_id : option str
}.

Record ResponseModel := {
  category : str;
  answer : str;
  documentation_links : list str;
  troubleshooting_steps : list str
}.

Record ModelService := {
  model_loaded : bool;
  model_name : str
}.

(** [ModelService.__init__] *)
Definition ModelService_init : ModelService :=
  {| model_loaded := false; model_name := lit "qa_categorizer_v1" |}.

(** [ModelService.load_model]: the new state of [self] and the log. *)
Definition load_model (self : ModelService) : logged ModelService :=
  log INFO (lit "Model " ++ model_name self ++ lit " loaded successfully") [];;
  mret {| model_loaded := true; model_name := model_name self |}.

Definition categories : list str :=
  [lit "networking"; lit "security"; lit "storage"; lit "virtualization"].

(** [ModelService.categorize_question] *)
Definition categorize_question (self : ModelService) (question : str)
  : result str :=
  if negb (model_loaded self) then
    Raise (HTTPException 503 (lit "Model not available"))
  else if negb (truthy (strip question)) then
    Raise (HTTPException 400 (lit "Question cannot be empty"))
  else
    match categories !! (length question mod length categories) with
    | Some c => Return c
    | None => Raise (IndexError (lit "list index out of range"))
    end.

Record QuestionProcessor := {
  model_service : ModelService
}.

(** [QuestionProcessor._generate_answer] *)
Definition _generate_answer (category : str) : str :=
  let answers : gmap str str := list_to_map [
    (lit "networking",
     lit "For networking issues, check router settings and firewall rules.");
    (lit "security",
     lit "Security problems often require reviewing access controls and encryption protocols.");
    (lit "storage",
     lit "Storage issues may involve disk space management or RAID configuration.");
    (lit "virtualization",
     lit "Virtualization problems typically relate to resource allocation or hypervisor settings.")
  ] in
  default (lit "No specific guidance available for this category")
          (answers !! category).

(** [QuestionProcessor._generate_documentation_links] *)
Definition _generate_documentation_links (category : str) : list str :=
  let links : gmap str (list str) := list_to_map [
    (lit "networking",
     [lit "https://docs.example.com/networking-guide";
      lit "https://support.example.com/network-troubleshooting"]);
    (lit "security",
     [lit "https://docs.example.com/security-best-practices";
      lit "https://support.example.com/secure-configuration"]);
    (lit "storage",
     [lit "https://docs.example.com/storage-optimization";
      lit "https://support.example.com/storage-diagnosis"]);
    (lit "virtualization",
     [lit "https://docs.example.com/virtualization-tips";
      lit "https://support.example.com/vm-configuration"])
  ] in
  default [] (links !! category).

(** [QuestionProcessor._generate_troubleshooting_steps] *)
Definition _generate_troubleshooting_steps (category : str) : list str :=
  let steps : gmap str (list str) := list_to_map [
    (lit "networking",
     [lit "Check physical connections and router LEDs";
      lit "Restart network devices and test connectivity";
      lit "Verify firewall rules and port configurations"]);
    (lit "security",
     [lit "Review access control lists and permissions";
      lit "Check for unauthorized device connections";
      lit "Verify encryption protocols and certificate validity"]);
    (lit "storage",
     [lit "Monitor disk space and storage quotas";
      lit "Check RAID array status and rebuild if needed";
      lit "Verify storage path configurations and permissions"]);
    (lit "virtualization",
     [lit "Check resource allocation for virtual machines";
      lit "Verify hypervisor version and patches";
      lit "Monitor VM performance counters for bottlenecks"])
  ] in
  default [] (steps !! category).

(** [QuestionProcessor.process_question]. The two [except] clauses are
    tried in order on whatever the [try] block raises: pydantic's
    [ValidationError] first, then [Exception], which every exception
    of the block is an instance of, [HTTPException] included. *)
Definition process_question (self : QuestionProcessor)
    (question_data : QuestionModel) : logged ResponseModel :=
  try_except
    ((if negb (truthy (strip (question question_data))) then
        raise (HTTPException 400 (lit "Question cannot be empty"))
      else mret tt);;
     log INFO (lit "Processing question: "
               ++ slice_to 50 (question question_data) ++ lit "...") [];;
     category ← lift (categorize_question (model_service self)
                                          (question question_data));
     let documentation_links := _generate_documentation_links category in
     let troubleshooting_steps :=
       _generate_troubleshooting_steps category in
     mret {| category := category;
             answer := _generate_answer category;
             documentation_links := documentation_links;
             troubleshooting_steps := troubleshooting_steps |})
    (fun e =>
       match e with
       | ValidationError _ =>
           log ERROR (lit "Validation error: " ++ exn_str e) [];;
           raise (HTTPException 400 (exn_str e))
       | _ =>
           log ERROR (lit "Unexpected error: " ++ exn_str e) [];;
           raise (HTTPException 500 (lit "Internal server error"))
       end).

(** [validate_question] of [services.py]: the length gate. The lower
    bound is taken on the trimmed text, the upper bound on the text as
    given. *)
Definition validate_question (question : str) : logged bool :=
  if negb (truthy question) || (length (strip question) <? 3) then
    log WARNING (lit "Question too short for meaningful analysis") [];;
    mret false
  else if 1000 <? length question then
    log WARNING (lit "Question exceeds maximum length of 1000 characters") [];;
    mret false
  else mret true.

End Services.


(** ** utils.py *)

Module Utils.

Record QuestionValidator := {
  prohibited_words : gset str;
  technical_keywords : gset str
}.

(** [QuestionValidator.__init__] *)
Definition QuestionValidator_init : QuestionValidator :=
  {| prohibited_words := {[ lit "spam"; lit "illegal"; lit "malware" ]};
     technical_keywords :=
       {[ lit "how"; lit "why"; lit "what"; lit "explain"; lit "steps";
          lit "guide" ]} |}.

(** [any(word in text for word in words)] *)
Definition any_word_in (words : gset str) (text : str) : bool :=
  existsb (fun word => contains text word) (elements words).

(** What [self] is bound to while the body of a method runs: an
    instance set up by [__init__], or the class [QuestionValidator]
    itself. *)
Inductive receiver :=
| SelfIsClass
| SelfIsInstance (v : QuestionValidator).

(** The [AttributeError] of an attribute looked up on the class. *)
Definition no_class_attribute (name : str) : exn :=
  AttributeError (lit "type object 'QuestionValidator' has no attribute '"
                  ++ name ++ lit "'").

(** [self.prohibited_words] and [self.technical_keywords]. Both are
    attributes [__init__] sets on an instance; the class has neither. *)
Definition get_prohibited_words (self : receiver) : result (gset str) :=
  match self with
  | SelfIsInstance v => Return (prohibited_words v)
  | SelfIsClass => Raise (no_class_attribute (lit "prohibited_words"))
  end.

Definition get_technical_keywords (self : receiver) : result (gset str) :=
  match self with
  | SelfIsInstance v => Return (technical_keywords v)
  | SelfIsClass => Raise (no_class_attribute (lit "technical_keywords"))
  end.

(** The function written under [@validator('question')]. The iterable
    of each generator expression, [self.prohibited_words] and
    [self.technical_keywords], is evaluated before [value.lower()]. The
    iteration order of the sets does not matter to [any]. *)
Definition validate_question_function {db : UnicodeDB} (self : receiver)
    (value : str) : logged str :=
  try_except
    ((if negb (truthy (strip value)) then
        raise (ValueError (lit "Question cannot be empty"))
      else mret tt);;
     prohibited ← lift (get_prohibited_words self);
     (if any_word_in prohibited (lower value) then
        raise (ValueError (lit "Question contains prohibited content"))
      else mret tt);;
     technical ← lift (get_technical_keywords self);
     (if negb (any_word_in technical (lower value)) then
        log WARNING (lit "Question may not be technical enough: %s") [value]
      else mret tt);;
     mret value)
    (fun e =>
       log ERROR (lit "Validation error: %s") [exn_str e];;
       raise (HTTPException 400 (exn_str e))).

(** [QuestionValidator.validate_question] as the class has it. The
    decorator [@validator('question')] (pydantic 1.x, under which
    [utils.py] loads) wraps the function in [classmethod]: called on an
    instance, the function receives the class of that instance as
    [self], not the instance. *)
Definition validate_question {db : UnicodeDB} (self : QuestionValidator)
    (value : str) : logged str :=
  validate_question_function SelfIsClass value.

Record DocumentationHelper := {
  helper_links : gmap str str
}.

(** [DocumentationHelper.__init__]; the field is [documentation_links]
    in the source. *)
Definition DocumentationHelper_init : DocumentationHelper :=
  {| helper_links := list_to_map [
       (lit "python", lit "https://docs.python.org/3/");
       (lit "machine-learning", lit "https://machinelearning.com/");
       (lit "api", lit "https://api-reference.example.com/")
     ] |}.

(** [DocumentationHelper.get_documentation_links] *)
Definition get_documentation_links (self : DocumentationHelper)
    (category : str) : logged (list (gmap str str)) :=
  try_except
    (match helper_links self !! category with
     | None =>
         raise (ValueError (lit "Category '" ++ category
                            ++ lit "' not found in documentation links"))
     | Some url =>
         mret [ list_to_map [
                  (lit "title", lit "Documentation for " ++ category);
                  (lit "url", url) ] ]
     end)
    (fun e =>
       log ERROR (lit "Error retrieving documentation links: %s")
                 [exn_str e];;
       mret []).

(** [re.sub(pattern, repl, s)], for a pattern given by its matcher:
    [match_at s] is the length of the match of the pattern at the start
    of [s], if there is one. The scan goes left to right; a match is
    replaced and the scan resumes after it, an unmatched character is
    kept. [skip] counts the characters of the current match still to
    be passed over. *)
Fixpoint re_sub_from (match_at : str -> option nat) (repl : str)
    (skip : nat) (s : str) : str :=
  match skip, s with
  | S k, _ :: s' => re_sub_from match_at repl k s'
  | S _, [] => []
  | O, [] =>
      match match_at [] with
      | Some _ => repl
      | None => []
      end
  | O, c :: s' =>
      match match_at s with
      | Some (S n) => repl ++ re_sub_from match_at repl n s'
      | Some O => repl ++ c :: re_sub_from match_at repl 0 s'
      | None => c :: re_sub_from match_at repl 0 s'
      end
  end.

Definition re_sub (match_at : str -> option nat) (repl s : str) : str :=
  re_sub_from match_at repl 0 s.

Definition LT : N := 60.  (* < *)
Definition GT : N := 62.  (* > *)

(** Length of the longest prefix of [s] without [>]: the greedy
    [[^>]+]. *)
Fixpoint span_not_gt (s : str) : nat :=
  match s with
  | [] => 0
  | c :: s' => if (c =? GT)%N then 0 else S (span_not_gt s')
  end.

(** The pattern [<[^>]+>]: [<], at least one character other than
    [>], then [>]. Giving back characters of the greedy run never
    helps, since each of them is not [>]. *)
Definition match_tag (s : str) : option nat :=
  match s with
  | [] => None
  | c :: s' =>
      if (c =? LT)%N then
        let n := span_not_gt s' in
        match n, drop n s' with
        | S _, _ :: _ => Some (1 + n + 1)
        | _, _ => None
        end
      else None
  end.

(** The punctuation listed in the second pattern:
    [- . , ! ? ; : ( ) { } [ ]]. *)
Definition punctuation : list N :=
  [45; 46; 44; 33; 63; 59; 58; 40; 41; 123; 125; 91; 93]%N.

(** Membership in [[\w\s\-\.\,\!\?\;\:\(\)\{\}\[\]]]; [\w] is an
    alphanumeric code point or the underscore. *)
Definition in_whitelist {db : UnicodeDB} (c : N) : bool :=
  isalnum c || (c =? 95)%N || isspace c || bool_decide (c ∈ punctuation).

(** The pattern [[^\w\s\-\.\,\!\?\;\:\(\)\{\}\[\]]]: one character
    outside the class. *)
Definition match_disallowed {db : UnicodeDB} (s : str) : option nat :=
  match s with
  | [] => None
  | c :: _ => if in_whitelist c then None else Some 1
  end.

(** [sanitize_input] *)
Definition sanitize_input {db : UnicodeDB} (text : object) : logged str :=
  try_except
    (match text with
     | PyNone => mret []
     | PyStr text =>
         let sanitized := re_sub match_tag [] text in
         let sanitized := re_sub match_disallowed [] sanitized in
         mret (strip sanitized)
     | _ => raise (ValueError (lit "Input must be a string"))
     end)
    (fun e =>
       log ERROR (lit "Error sanitizing input: %s") [exn_str e];;
       mret []).

(** The dictionary [format_response] returns; its keys are [content],
    [category] and [documentation]. *)
Record FormattedResponse := {
  fr_content : str;
  fr_category : str;
  fr_documentation : list (gmap str str)
}.

(** [format_response] *)
Definition format_response {db : UnicodeDB} (content category : str)
  : logged FormattedResponse :=
  try_except
    (let validator := QuestionValidator_init in
     let doc_helper := DocumentationHelper_init in
     validate_question validator category;;
     documentation ← get_documentation_links doc_helper category;
     mret {| fr_content := content;
             fr_category := category;
             fr_documentation := documentation |})
    (fun e =>
       log ERROR (lit "Error formatting response: %s") [exn_str e];;
       mret {| fr_content := content;
               fr_category := lit "unknown";
               fr_documentation := [] |}).

End Utils.

(** ** main.py *)

Module Main.

(** Upper-casing outside the ASCII range, from the interpreter's
    database. *)
Class UnicodeUpper := {
  unicode_upper : str -> str
}.

Definition ascii_upper (c : N) : N :=
  if ((97 <=? c) && (c <=? 122))%N then (c - 32)%N else c.

(** [s.upper()] *)
Definition upper {up : UnicodeUpper} (s : str) : str :=
  if isascii s then map ascii_upper s else unicode_upper s.

(** [str(n)] of a non-negative [int], as an f-string prints it. *)
Definition str_of_nat (n : nat) : str :=
  lit (NilZero.string_of_uint (Nat.to_uint n)).

Record RequestData := {
  input_text : str;
  options : option (gmap str object)
}.

(** The [metadata] dictionary of a successful response. *)
Record Metadata := {
  input_length : nat;
  output_length : nat;
  processed_at : str;
  metadata_options : option (gmap str object)
}.

Record ResponseData := {
  output : str;
  status : str;
  metadata : option Metadata
}.

(** [process_data], the handler of [POST /process]. [now] is what
    [datetime.now().isoformat()] gives during the call. An
    [HTTPException] is logged and raised again as it is; anything else
    becomes the generic 500. *)
Definition process_data {up : UnicodeUpper} (now : str)
    (request : RequestData) : logged ResponseData :=
  try_except
    ((if negb (truthy (input_text request))
         || negb (truthy (strip (input_text request))) then
        log WARNING (lit "Empty input received") [];;
        raise (HTTPException 400 (lit "Input text cannot be empty"))
      else mret tt);;
     let input_length := length (input_text request) in
     log INFO (lit "Processing input of length: "
               ++ str_of_nat input_length) [];;
     let processed := upper (input_text request) in
     let output :=
       lit "Processed " ++ str_of_nat input_length ++ lit " characters: "
       ++ slice_to 50 processed ++ lit "..." in
     log INFO (lit "Processing completed successfully") [];;
     mret {| output := output;
             status := lit "success";
             metadata :=
               Some {| input_length := input_length;
                       output_length := length output;
                       processed_at := now;
                       metadata_options := options request |} |})
    (fun e =>
       match e with
       | HTTPException _ detail =>
           log ERROR (lit "HTTP error: " ++ detail) [];;
           raise e
       | _ =>
           log ERROR (lit "Unexpected error during processing: "
                      ++ exn_str e) [];;
           raise (HTTPException 500
                    (lit "An unexpected error occurred during processing"))
       end).

End Main.

Import Services Utils.

(** * Vocabulary of the statements *)

(** The interpreter's database restricted to ASCII: the instance at
    which the statements below are evaluated on concrete texts. *)
Definition ascii_only_db : UnicodeDB :=
  {| unicode_lower := fun s => s; unicode_isalnum := fun _ => false |}.

Definition loaded_service : ModelService :=
  {| model_loaded := true; model_name := lit "qa_categorizer_v1" |}.

(** [sub] occurs in [s] as a contiguous run of characters. *)
Definition substring (sub s : str) : Prop := exists a b, s = a ++ sub ++ b.

Definition internal_error : exn :=
  HTTPException 500 (lit "Internal server error").

Definition scenario : QuestionModel :=
  {| question := lit "how do I fix my network"; user_id := None |}.

Definition generic_answer : str :=
  lit "No specific guidance available for this category".

(** A dictionary with a title and a URL, as
    [DocumentationHelper.get_documentation_links] builds it. *)
Definition title_url (title url : str) : gmap str str :=
  list_to_map [(lit "title", title); (lit "url", url)].

Definition is_title_url_record (o : object) : Prop :=
  exists title url, o = PyDict (title_url title url).

Definition empty_input : exn :=
  HTTPException 400 (lit "Question cannot be empty").

Definition prohibited_content : exn :=
  HTTPException 400 (lit "Question contains prohibited content").

(** [str(e)] of the [AttributeError] for [prohibited_words] looked up
    on the class. *)
Definition missing_prohibited_words : str :=
  exn_str (no_class_attribute (lit "prohibited_words")).

Definition not_technical_warning (value : str) : log_record :=
  {| levelname := WARNING;
     msg := lit "Question may not be technical enough: %s";
     args := [value] |}.

(** [s] begins with a tag: [<], one or more characters other than [>],
    then [>]. *)
Definition tag_prefix (tag s : str) : Prop :=
  exists body rest,
    body <> [] /\ (GT ∉ body) /\ tag = LT :: body ++ [GT] /\ s = tag ++ rest.

(** [out] is [s] with its tags removed, reading from the left: where a
    tag begins it is dropped whole and reading resumes behind it, any
    other character is kept. *)
Inductive tags_removed : str -> str -> Prop :=
| tags_removed_nil : tags_removed [] []
| tags_removed_tag tag rest out :
    tag_prefix tag (tag ++ rest) ->
    tags_removed rest out ->
    tags_removed (tag ++ rest) out
| tags_removed_keep c s out :
    (forall tag, ~ tag_prefix tag (c :: s)) ->
    tags_removed s out ->
    tags_removed (c :: s) (c :: out).

(** The whitelist in the words of the design document: word characters,
    white space, and the punctuation [- . , ! ? ; : ( ) { } [ ]]. A word
    character is an alphanumeric character or the underscore. *)
Definition word_character {db : UnicodeDB} (c : N) : Prop :=
  isalnum c = true \/ c = N_of_ascii "_".

Definition listed_punctuation : str := lit "-.,!?;:(){}[]".

Definition whitelisted {db : UnicodeDB} (c : N) : Prop :=
  word_character c \/ isspace c = true \/ c ∈ listed_punctuation.

(** The ASCII characters of the whitelist, written out: letters, digits,
    underscore, the listed punctuation, the blank, and the control
    characters 9 to 13 and 28 to 31 that count as white space. *)
Definition ascii_whitelist : str :=
  lit "abcdefghijklmnopqrstuvwxyzABCDEFGHIJKLMNOPQRSTUVWXYZ0123456789_"
  ++ lit "-.,!?;:(){}[]" ++ lit " "
  ++ [9; 10; 11; 12; 13; 28; 29; 30; 31]%N.

Definition whitespace_only (s : str) : Prop :=
  Forall (fun c => isspace c = true) s.

(** [s] neither starts nor ends with white space. *)
Definition trimmed (s : str) : Prop :=
  (forall c r, s = c :: r -> isspace c = false)
  /\ (forall c r, s = r ++ [c] -> isspace c = false).

Definition not_a_string_record : log_record :=
  {| levelname := ERROR;
     msg := lit "Error sanitizing input: %s";
     args := [lit "Input must be a string"] |}.

(** * Properties *)
(** ** Strings *)

Lemma startswith_spec (s p : str) :
  startswith s p = true <-> exists b, s = p ++ b.
Proof.
  revert s; induction p as [|c p IH]; intros s; simpl.
  - split; [intros _; by exists s | done].
  - destruct s as [|d s]; simpl.
    + split; [done | intros [b Hb]; discriminate].
    + rewrite andb_true_iff, N.eqb_eq, IH. split.
      * intros [-> [b ->]]. by exists b.
      * intros [b Hb]. injection Hb as -> ->. split; [done | by exists b].
Qed.

Lemma contains_spec (s sub : str) :
  contains s sub = true <-> substring sub s.
Proof.
  unfold substring. induction s as [|c s IH]; simpl.
  - rewrite orb_false_r, startswith_spec. split.
    + intros [b Hb]. by exists [], b.
    + intros [a [b Hab]]. symmetry in Hab.
      apply app_eq_nil in Hab as [-> Hab%app_eq_nil].
      destruct Hab as [-> ->]. by exists [].
  - rewrite orb_true_iff, startswith_spec, IH. split.
    + intros [[b Hb] | [a [b Hab]]].
      * by exists [], b.
      * exists (c :: a), b. by rewrite Hab.
    + intros [[|d a] [b Hab]].
      * left. by exists b.
      * right. injection Hab as -> ->. by exists a, b.
Qed.

Lemma truthy_false (s : str) : truthy s = false <-> s = [].
Proof. by destruct s. Qed.

Lemma truthy_true (s : str) : truthy s = true <-> s <> [].
Proof. by destruct s. Qed.

(** ** The classifier *)

Lemma categories_length : length categories = 4.
Proof. reflexivity. Qed.

(** Loading the model of a fresh service gives the loaded service the
    statements below are evaluated at. *)
Lemma load_model_loads :
  outcome (load_model ModelService_init) = Return loaded_service.
Proof. reflexivity. Qed.

(** C1. With the model loaded and a question that is not blank,
    [categorize_question] returns the entry of the ordered list
    [networking, security, storage, virtualization] at index
    [length t mod 4]; the result is the same for every loaded service,
    so it depends on the text alone. *)
Theorem categorize_question_length_mod (self : ModelService) (t : str) :
  model_loaded self = true ->
  strip t <> [] ->
  categories
    = [lit "networking"; lit "security"; lit "storage"; lit "virtualization"]
  /\ (exists c, categories !! (length t mod 4) = Some c
                /\ categorize_question self t = Return c)
  /\ (forall self', model_loaded self' = true ->
                    categorize_question self' t = categorize_question self t).
Proof.
  intros Hloaded Hblank. apply truthy_true in Hblank.
  split; [reflexivity | split].
  - destruct (lookup_lt_is_Some_2 categories (length t mod 4)) as [c Hc].
    { rewrite categories_length. apply Nat.mod_upper_bound. lia. }
    exists c. split; [done |].
    unfold categorize_question.
    by rewrite Hloaded, Hblank, categories_length, Hc.
  - intros self' Hloaded'. unfold categorize_question.
    by rewrite Hloaded, Hloaded'.
Qed.

Lemma categorize_question_length_mod_witness :
  model_loaded loaded_service = true
  /\ strip (lit "is my disk full?") <> []
  /\ categorize_question loaded_service (lit "is my disk full?")
     = Return (lit "networking").
Proof.
  split; [reflexivity | split; [vm_compute; discriminate |]].
  destruct (categorize_question_length_mod loaded_service
              (lit "is my disk full?")) as (_ & (c & Hc & Hret) & _).
  - reflexivity.
  - vm_compute; discriminate.
  - rewrite Hret. vm_compute in Hc. by injection Hc as <-.
Defined.

(** C4. A service whose model is not loaded refuses every text, blank
    or not, with 503; a loaded one refuses a blank text with 400. *)
Theorem categorize_question_failures (self : ModelService) (t : str) :
  (model_loaded self = false ->
   categorize_question self t
   = Raise (HTTPException 503 (lit "Model not available")))
  /\ (model_loaded self = true -> strip t = [] ->
      categorize_question self t
      = Raise (HTTPException 400 (lit "Question cannot be empty"))).
Proof.
  unfold categorize_question. split.
  - by intros ->.
  - intros -> Hblank%truthy_false. by rewrite Hblank.
Qed.

Lemma categorize_question_failures_witness :
  (model_loaded ModelService_init = false
   /\ categorize_question ModelService_init (lit "   ")
      = Raise (HTTPException 503 (lit "Model not available")))
  /\ (model_loaded loaded_service = true /\ strip (lit "   ") = []
      /\ categorize_question loaded_service (lit "   ")
         = Raise (HTTPException 400 (lit "Question cannot be empty"))).
Proof.
  split.
  - split; [reflexivity |].
    apply (categorize_question_failures ModelService_init (lit "   ")).
    reflexivity.
  - split; [reflexivity | split; [reflexivity |]].
    apply (categorize_question_failures loaded_service (lit "   "));
      reflexivity.
Defined.

(** ** The assembler *)

(** Whatever the [try] block of [process_question] raises leaves the
    function as the generic 500. *)
Lemma process_question_raises_only_500 (self : QuestionProcessor)
    (question_data : QuestionModel) (e : exn) :
  outcome (process_question self question_data) = Raise e ->
  e = internal_error.
Proof.
  unfold process_question, try_except.
  destruct (outcome (_ ;; _)) as [r | e'] eqn:Hbody.
  - rewrite Hbody. intros [=].
  - destruct e'; simpl; try (intros [= <-]; reflexivity).
    (* a [ValidationError]: the block never raises one *)
    revert Hbody. unfold mbind, logged_bind, categorize_question; simpl.
    repeat (case_match; simpl in * ); congruence.
Qed.

(** C2, as the code behaves. The 400 raised for a blank question and
    the 503 raised by the classifier are both raised inside the [try]
    block and caught by [except Exception]: the caller receives the
    generic 500 in their place. *)
Theorem process_question_masks_400_and_503 :
  outcome (process_question {| model_service := loaded_service |}
             {| question := []; user_id := None |})
  = Raise internal_error
  /\ outcome (process_question {| model_service := ModelService_init |}
                {| question := lit "how do I reset my router";
                   user_id := None |})
     = Raise internal_error
  /\ categorize_question ModelService_init (lit "how do I reset my router")
     = Raise (HTTPException 503 (lit "Model not available")).
Proof. repeat split; reflexivity. Qed.

(** ** The scenario of the design document *)

(** C3 as stated does not hold: the text has 23 characters, so the
    classifier answers [virtualization], not [networking]. *)
Lemma scenario_not_networking :
  ~ (exists r,
        outcome (process_question {| model_service := loaded_service |}
                   scenario) = Return r
        /\ category r = lit "networking"
        /\ answer r
           = lit "For networking issues, check router settings and firewall rules."
        /\ documentation_links r
           = [lit "https://docs.example.com/networking-guide";
              lit "https://support.example.com/network-troubleshooting"]
        /\ length (troubleshooting_steps r) = 3
        /\ troubleshooting_steps r !! 0
           = Some (lit "Check physical connections and router LEDs")).
Proof.
  intros (r & Hr & Hcat & _). vm_compute in Hr.
  injection Hr as <-. vm_compute in Hcat. discriminate.
Qed.

(** C3, amended. The text has 23 characters and [23 mod 4 = 3]: the
    pipeline classifies it as [virtualization] and assembles the
    virtualization bundle. The bundle quoted in the scenario is the one
    the lookups give for [networking]. *)
Theorem scenario_is_virtualization :
  length (question scenario) = 23
  /\ categorize_question loaded_service (question scenario)
     = Return (lit "virtualization")
  /\ outcome (process_question {| model_service := loaded_service |} scenario)
     = Return
         {| category := lit "virtualization";
            answer :=
              lit "Virtualization problems typically relate to resource allocation or hypervisor settings.";
            documentation_links :=
              [lit "https://docs.example.com/virtualization-tips";
               lit "https://support.example.com/vm-configuration"];
            troubleshooting_steps :=
              [lit "Check resource allocation for virtual machines";
               lit "Verify hypervisor version and patches";
               lit "Monitor VM performance counters for bottlenecks"] |}
  /\ _generate_answer (lit "networking")
     = lit "For networking issues, check router settings and firewall rules."
  /\ _generate_documentation_links (lit "networking")
     = [lit "https://docs.example.com/networking-guide";
        lit "https://support.example.com/network-troubleshooting"]
  /\ _generate_troubleshooting_steps (lit "networking")
     = [lit "Check physical connections and router LEDs";
        lit "Restart network devices and test connectivity";
        lit "Verify firewall rules and port configurations"].
Proof. repeat split; vm_compute; reflexivity. Qed.

(** ** The knowledge base *)

Lemma not_known_category (c : str) :
  c ∉ categories ->
  lit "networking" <> c /\ lit "security" <> c /\ lit "storage" <> c
  /\ lit "virtualization" <> c.
Proof.
  unfold categories. rewrite !not_elem_of_cons. intros (? & ? & ? & ? & _).
  by repeat split.
Qed.

Ltac unknown_key :=
  simpl list_to_map; rewrite !lookup_insert_ne by assumption;
  rewrite lookup_empty; reflexivity.

(** C5. The three lookups are functions defined on every category
    string. On each of the four known categories the answer is not
    empty, there are exactly two links and exactly three steps, and the
    tables are the ones listed, in that order; on any other string the
    answer is the generic sentence and both sequences are empty. *)
Theorem knowledge_base_total (c : str) :
  (c ∈ categories ->
   _generate_answer c <> []
   /\ length (_generate_documentation_links c) = 2
   /\ length (_generate_troubleshooting_steps c) = 3)
  /\ (c ∉ categories ->
      _generate_answer c = generic_answer
      /\ _generate_documentation_links c = []
      /\ _generate_troubleshooting_steps c = [])
  /\ map _generate_documentation_links categories
     = [[lit "https://docs.example.com/networking-guide";
         lit "https://support.example.com/network-troubleshooting"];
        [lit "https://docs.example.com/security-best-practices";
         lit "https://support.example.com/secure-configuration"];
        [lit "https://docs.example.com/storage-optimization";
         lit "https://support.example.com/storage-diagnosis"];
        [lit "https://docs.example.com/virtualization-tips";
         lit "https://support.example.com/vm-configuration"]]
  /\ map _generate_troubleshooting_steps categories
     = [[lit "Check physical connections and router LEDs";
         lit "Restart network devices and test connectivity";
         lit "Verify firewall rules and port configurations"];
        [lit "Review access control lists and permissions";
         lit "Check for unauthorized device connections";
         lit "Verify encryption protocols and certificate validity"];
        [lit "Monitor disk space and storage quotas";
         lit "Check RAID array status and rebuild if needed";
         lit "Verify storage path configurations and permissions"];
        [lit "Check resource allocation for virtual machines";
         lit "Verify hypervisor version and patches";
         lit "Monitor VM performance counters for bottlenecks"]]
  /\ map _generate_answer categories
     = [lit "For networking issues, check router settings and firewall rules.";
        lit "Security problems often require reviewing access controls and encryption protocols.";
        lit "Storage issues may involve disk space management or RAID configuration.";
        lit "Virtualization problems typically relate to resource allocation or hypervisor settings."].
Proof.
  split; [| split; [| repeat split; vm_compute; reflexivity]].
  - unfold categories. rewrite !elem_of_cons, elem_of_nil.
    intros [-> | [-> | [-> | [-> | []]]]];
      (split; [vm_compute; discriminate | split; vm_compute; reflexivity]).
  - intros (? & ? & ? & ?)%not_known_category.
    unfold _generate_answer, _generate_documentation_links,
      _generate_troubleshooting_steps, generic_answer.
    repeat split; unknown_key.
Qed.

Lemma knowledge_base_total_witness :
  (lit "storage" ∈ categories
   /\ _generate_answer (lit "storage") <> []
   /\ length (_generate_documentation_links (lit "storage")) = 2
   /\ length (_generate_troubleshooting_steps (lit "storage")) = 3)
  /\ ((lit "python" ∉ categories)
      /\ _generate_answer (lit "python") = generic_answer
      /\ _generate_documentation_links (lit "python") = []
      /\ _generate_troubleshooting_steps (lit "python") = []).
Proof.
  split.
  - split; [vm_compute; set_solver |].
    apply (knowledge_base_total (lit "storage")). vm_compute; set_solver.
  - assert (Hout : lit "python" ∉ categories).
    { unfold categories. rewrite !not_elem_of_cons.
      repeat split; try (vm_compute; discriminate). apply not_elem_of_nil. }
    split; [exact Hout |].
    apply (knowledge_base_total (lit "python")). exact Hout.
Defined.

(** ** The shape of a documentation link *)

(** C6 as stated does not hold: the links of the answer bundle are
    plain strings. *)
Lemma documentation_links_not_records :
  ~ (forall c, c ∈ categories ->
       Forall is_title_url_record (PyStr <$> _generate_documentation_links c)).
Proof.
  intros Hall.
  assert (Hin : lit "networking" ∈ categories) by (vm_compute; set_solver).
  specialize (Hall _ Hin). vm_compute in Hall.
  apply Forall_cons in Hall as [(title & url & Heq) _]. discriminate.
Qed.

(** C6, amended. For a known category the bundle's links are two URL
    strings, as the [List[str]] field of [ResponseModel] requires.
    Records with a title and a URL come from [DocumentationHelper], one
    for each key of its own table; it has no entry for the four
    question categories and answers them with the empty sequence. *)
Theorem documentation_links_are_url_strings (c : str) :
  (c ∈ categories ->
   (exists u1 u2,
       _generate_documentation_links c = [u1; u2]
       /\ startswith u1 (lit "https://") = true
       /\ startswith u2 (lit "https://") = true)
   /\ outcome (get_documentation_links DocumentationHelper_init c)
      = Return [])
  /\ (forall url,
        helper_links DocumentationHelper_init !! c = Some url ->
        get_documentation_links DocumentationHelper_init c
        = Logged [] (Return [title_url (lit "Documentation for " ++ c) url])).
Proof.
  split.
  - unfold categories. rewrite !elem_of_cons, elem_of_nil.
    intros [-> | [-> | [-> | [-> | []]]]];
      (split; [eexists _, _; vm_compute; repeat split | reflexivity]).
  - intros url Hurl. unfold get_documentation_links, try_except.
    by rewrite Hurl.
Qed.

Lemma documentation_links_are_url_strings_witness :
  (lit "security" ∈ categories
   /\ _generate_documentation_links (lit "security")
      = [lit "https://docs.example.com/security-best-practices";
         lit "https://support.example.com/secure-configuration"]
   /\ outcome (get_documentation_links DocumentationHelper_init
                 (lit "security")) = Return [])
  /\ (helper_links DocumentationHelper_init !! lit "api"
      = Some (lit "https://api-reference.example.com/")
      /\ outcome (get_documentation_links DocumentationHelper_init (lit "api"))
         = Return [title_url (lit "Documentation for api")
                     (lit "https://api-reference.example.com/")]).
Proof.
  split.
  - split; [vm_compute; set_solver | split; [reflexivity |]].
    apply (documentation_links_are_url_strings (lit "security")).
    vm_compute; set_solver.
  - split; [reflexivity |].
    destruct (documentation_links_are_url_strings (lit "api")) as [_ Hrec].
    rewrite (Hrec (lit "https://api-reference.example.com/")) by reflexivity.
    reflexivity.
Defined.

(** ** The validator *)

Lemma any_word_in_spec (words : gset str) (text : str) :
  any_word_in words text = true
  <-> exists w, w ∈ words /\ substring w text.
Proof.
  unfold any_word_in. rewrite existsb_exists. split.
  - intros (w & Hin & Hw). exists w. split.
    + by apply elem_of_elements, list_elem_of_In.
    + by apply contains_spec.
  - intros (w & Hin & Hw). exists w. split.
    + by apply list_elem_of_In, elem_of_elements.
    + by apply contains_spec.
Qed.

Lemma any_word_in_none (words : gset str) (text : str) :
  any_word_in words text = false
  <-> forall w, w ∈ words -> ~ substring w text.
Proof.
  rewrite <- not_true_iff_false, any_word_in_spec. split.
  - intros Hno w Hin Hsub. apply Hno. by exists w.
  - intros Hno (w & Hin & Hsub). by apply (Hno w).
Qed.

Section Validator.
Context {db : UnicodeDB}.

(** The blank test comes before any use of [self]. *)
Lemma validate_question_function_blank (self : receiver) (value : str) :
  strip value = [] ->
  validate_question_function self value
  = Logged [{| levelname := ERROR; msg := lit "Validation error: %s";
               args := [lit "Question cannot be empty"] |}]
           (Raise empty_input).
Proof.
  intros Hblank%truthy_false. unfold validate_question_function, try_except.
  by rewrite Hblank.
Qed.

(** With the class as [self], the first attribute lookup fails. *)
Lemma validate_question_function_on_class (value : str) :
  strip value <> [] ->
  validate_question_function SelfIsClass value
  = Logged [{| levelname := ERROR; msg := lit "Validation error: %s";
               args := [missing_prohibited_words] |}]
           (Raise (HTTPException 400 missing_prohibited_words)).
Proof.
  intros Hblank%truthy_true. unfold validate_question_function, try_except.
  by rewrite Hblank.
Qed.

(** With an instance as [self], the function does what its docstring
    says. *)
Lemma validate_question_function_rejects (v : QuestionValidator)
    (value : str) :
  strip value <> [] ->
  any_word_in (prohibited_words v) (lower value) = true ->
  validate_question_function (SelfIsInstance v) value
  = Logged [{| levelname := ERROR; msg := lit "Validation error: %s";
               args := [lit "Question contains prohibited content"] |}]
           (Raise prohibited_content).
Proof.
  intros Hblank%truthy_true Hbad.
  unfold validate_question_function, try_except, mbind, logged_bind, lift.
  rewrite Hblank. cbn. by rewrite Hbad.
Qed.

Lemma validate_question_function_accepts (v : QuestionValidator)
    (value : str) :
  strip value <> [] ->
  any_word_in (prohibited_words v) (lower value) = false ->
  validate_question_function (SelfIsInstance v) value
  = Logged (if any_word_in (technical_keywords v) (lower value)
            then [] else [not_technical_warning value])
           (Return value).
Proof.
  intros Hblank%truthy_true Hgood.
  unfold validate_question_function, try_except, mbind, logged_bind, lift.
  rewrite Hblank. cbn. rewrite Hgood. cbn.
  by destruct (any_word_in (technical_keywords v) (lower value)).
Qed.

Lemma validate_question_blank (self : QuestionValidator) (value : str) :
  strip value = [] ->
  validate_question self value
  = Logged [{| levelname := ERROR; msg := lit "Validation error: %s";
               args := [lit "Question cannot be empty"] |}]
           (Raise empty_input).
Proof. apply validate_question_function_blank. Qed.

(** As the class has it, every text that is not blank is refused, with
    the text of the [AttributeError] as detail. *)
Lemma validate_question_nonblank (self : QuestionValidator) (value : str) :
  strip value <> [] ->
  validate_question self value
  = Logged [{| levelname := ERROR; msg := lit "Validation error: %s";
               args := [missing_prohibited_words] |}]
           (Raise (HTTPException 400 missing_prohibited_words)).
Proof. apply validate_question_function_on_class. Qed.

End Validator.

(** C7. A text that is empty after trimming, the empty string and a
    run of spaces included, is refused with 400 "Question cannot be
    empty", whatever word sets the validator is configured with. *)
Theorem validate_question_empty_input {db : UnicodeDB}
    (self : QuestionValidator) (value : str) :
  strip value = [] ->
  outcome (validate_question self value) = Raise empty_input.
Proof. intros Hblank. by rewrite validate_question_blank. Qed.

Lemma validate_question_empty_input_witness :
  (strip [] = []
   /\ outcome (validate_question (db := ascii_only_db) QuestionValidator_init [])
      = Raise empty_input)
  /\ (strip (lit "   ") = []
      /\ outcome (validate_question (db := ascii_only_db)
                    QuestionValidator_init (lit "   "))
         = Raise empty_input).
Proof.
  split; (split; [reflexivity |]).
  - apply (@validate_question_empty_input ascii_only_db
             QuestionValidator_init []).
    reflexivity.
  - apply (@validate_question_empty_input ascii_only_db
             QuestionValidator_init (lit "   ")).
    reflexivity.
Defined.

(** C8, as the code behaves. The text "Remove MALWARE now" is not blank
    and holds "malware" in lower case, yet it is not refused as
    prohibited content: the decorated method receives the class as
    [self], the lookup of [prohibited_words] raises [AttributeError],
    and the caller gets a 400 whose detail is the text of that error.
    Run with an instance as [self], the same function raises the 400
    "Question contains prohibited content" the claim describes. *)
Theorem validate_question_prohibited_is_attribute_error {db : UnicodeDB} :
  outcome (validate_question QuestionValidator_init
             (lit "Remove MALWARE now"))
  = Raise (HTTPException 400
             (lit "type object 'QuestionValidator' has no attribute 'prohibited_words'"))
  /\ outcome (validate_question_function
                (SelfIsInstance QuestionValidator_init)
                (lit "Remove MALWARE now"))
     = Raise prohibited_content.
Proof. split; vm_compute; reflexivity. Qed.

(** C9, as the code behaves. The text "hello there" is not blank and
    holds no prohibited word, yet it is not returned: for the reason
    given under C8 the method raises a 400 with the text of the
    [AttributeError]. Run with an instance as [self], the same function
    returns the text unchanged and logs the one warning about the
    missing technical keyword. *)
Theorem validate_question_refuses_plain_text {db : UnicodeDB} :
  outcome (validate_question QuestionValidator_init (lit "hello there"))
  = Raise (HTTPException 400
             (lit "type object 'QuestionValidator' has no attribute 'prohibited_words'"))
  /\ validate_question_function (SelfIsInstance QuestionValidator_init)
       (lit "hello there")
     = Logged [not_technical_warning (lit "hello there")]
              (Return (lit "hello there")).
Proof. split; vm_compute; reflexivity. Qed.

(** ** The sanitizer *)

(** *** Trimming *)

Lemma lstrip_elem (c : N) (s : str) : c ∈ lstrip s -> c ∈ s.
Proof.
  induction s as [|d s IH]; simpl; [done |].
  destruct (isspace d); [| done]. intros Hc. right. by apply IH.
Qed.

Lemma lstrip_head (s : str) :
  lstrip s = [] \/ exists c r, lstrip s = c :: r /\ isspace c = false.
Proof.
  induction s as [|d s IH]; simpl; [by left |].
  destruct (isspace d) eqn:Hd; [done |]. right. by exists d, s.
Qed.

Lemma lstrip_snoc (a : str) (c : N) :
  isspace c = false -> lstrip (a ++ [c]) = lstrip a ++ [c].
Proof.
  intros Hc. induction a as [|d a IH]; simpl.
  - by rewrite Hc.
  - by destruct (isspace d).
Qed.

Lemma lstrip_idem (s : str) : lstrip (lstrip s) = lstrip s.
Proof.
  destruct (lstrip_head s) as [-> | (c & r & -> & Hc)]; [done |].
  simpl. by rewrite Hc.
Qed.

Lemma rstrip_idem (s : str) : rstrip (rstrip s) = rstrip s.
Proof. unfold rstrip. by rewrite rev_involutive, lstrip_idem. Qed.

Lemma rstrip_elem (c : N) (s : str) : c ∈ rstrip s -> c ∈ s.
Proof.
  unfold rstrip. rewrite !list_elem_of_In, <- in_rev, <- !list_elem_of_In.
  intros Hc%lstrip_elem. by rewrite list_elem_of_In, in_rev, <- list_elem_of_In.
Qed.

Lemma strip_elem (c : N) (s : str) : c ∈ strip s -> c ∈ s.
Proof. unfold strip. by intros Hc%rstrip_elem%lstrip_elem. Qed.

(** A trimmed text is left alone by a second trimming. *)
Lemma strip_idem (s : str) : strip (strip s) = strip s.
Proof.
  unfold strip at 2 3.
  destruct (lstrip_head s) as [-> | (c & r & -> & Hc)]; [done |].
  assert (Hr : exists w, rstrip (c :: r) = c :: w).
  { unfold rstrip. simpl rev. rewrite lstrip_snoc by done.
    rewrite rev_app_distr. simpl. by eexists. }
  destruct Hr as [w Hw]. unfold strip. rewrite Hw. simpl. rewrite Hc.
  by rewrite <- Hw, rstrip_idem.
Qed.

Lemma lstrip_length (s : str) : length (lstrip s) <= length s.
Proof.
  induction s as [|c s IH]; simpl; [done |].
  destruct (isspace c); simpl; lia.
Qed.

Lemma strip_length (s : str) : length (strip s) <= length s.
Proof.
  unfold strip, rstrip. rewrite length_rev.
  etransitivity; [apply lstrip_length |]. rewrite length_rev.
  apply lstrip_length.
Qed.

Lemma lstrip_split (s : str) :
  exists p, s = p ++ lstrip s /\ whitespace_only p.
Proof.
  unfold whitespace_only.
  induction s as [|c s (p & IH & Hp)]; simpl; [by exists [] |].
  destruct (isspace c) eqn:Hc; [| by exists []].
  exists (c :: p). split; [simpl; by rewrite <- IH | by constructor].
Qed.

Lemma rstrip_split (s : str) :
  exists q, s = rstrip s ++ q /\ whitespace_only q.
Proof.
  unfold rstrip. destruct (lstrip_split (rev s)) as (p & Hp & Hws).
  exists (rev p). split.
  - rewrite <- rev_app_distr, <- Hp. by rewrite rev_involutive.
  - unfold whitespace_only in *. rewrite Forall_forall in *.
    intros c Hc. apply Hws.
    by rewrite list_elem_of_In, in_rev, <- list_elem_of_In.
Qed.

(** What trimming removes is white space, on both sides. *)
Lemma strip_split (s : str) :
  exists p q, s = p ++ strip s ++ q /\ whitespace_only p /\ whitespace_only q.
Proof.
  unfold strip. destruct (lstrip_split s) as (p & Hp & Hwp).
  destruct (rstrip_split (lstrip s)) as (q & Hq & Hwq).
  exists p, q. by rewrite <- Hq.
Qed.

Lemma rstrip_snoc_space (y : str) (c : N) :
  isspace c = true -> rstrip (y ++ [c]) = rstrip y.
Proof.
  intros Hc. unfold rstrip. rewrite rev_app_distr. simpl. by rewrite Hc.
Qed.

Lemma rstrip_length (s : str) : length (rstrip s) <= length s.
Proof.
  unfold rstrip. rewrite length_rev.
  etransitivity; [apply lstrip_length |]. by rewrite length_rev.
Qed.

(** A text that trimming leaves alone neither starts nor ends with
    white space. *)
Lemma strip_fixed_trimmed (s : str) : strip s = s -> trimmed s.
Proof.
  intros Hfix. split.
  - intros c r -> . destruct (isspace c) eqn:Hc; [exfalso | done].
    pose proof (f_equal length Hfix) as Hlen. unfold strip in Hlen.
    simpl in Hlen. rewrite Hc in Hlen.
    pose proof (rstrip_length (lstrip r)). pose proof (lstrip_length r). lia.
  - intros c r ->. destruct (isspace c) eqn:Hc; [exfalso | done].
    pose proof (f_equal length Hfix) as Hlen. unfold strip in Hlen.
    destruct (lstrip_split (r ++ [c])) as (p & Hp & _).
    pose proof (lstrip_length (r ++ [c])) as Hle.
    destruct (lstrip (r ++ [c])) as [|d l] eqn:Hl using rev_ind.
    + simpl in Hlen. rewrite length_app in Hlen. simpl in Hlen. lia.
    + clear IHl. rewrite app_assoc in Hp.
      apply app_inj_tail in Hp as [_ <-].
      rewrite rstrip_snoc_space in Hlen by done.
      pose proof (rstrip_length l). rewrite !length_app in *. simpl in *. lia.
Qed.

(** *** The two substitutions *)

Lemma re_sub_from_skip (match_at : str -> option nat) (repl : str)
    (n : nat) (s : str) :
  match_at [] = None ->
  re_sub_from match_at repl n s = re_sub_from match_at repl 0 (drop n s).
Proof.
  intros Hnil. revert s; induction n as [|n IH]; intros s.
  - by rewrite drop_0.
  - destruct s as [|c s]; simpl; [by rewrite Hnil | apply IH].
Qed.

(** The second substitution keeps exactly the characters of the class. *)
Lemma re_sub_disallowed {db : UnicodeDB} (s : str) :
  re_sub match_disallowed [] s = List.filter in_whitelist s.
Proof.
  unfold re_sub. induction s as [|c s IH]; simpl; [done |].
  destruct (in_whitelist c); simpl; [by rewrite IH |].
  by rewrite re_sub_from_skip, drop_0.
Qed.

Lemma span_not_gt_app (body rest : str) :
  GT ∉ body -> span_not_gt (body ++ GT :: rest) = length body.
Proof.
  induction body as [|c body IH]; simpl; [done |].
  rewrite not_elem_of_cons. intros [Hc Hbody].
  destruct (N.eqb_spec c GT) as [-> | _]; [done |]. by rewrite IH.
Qed.

Lemma span_not_gt_split (s : str) :
  (GT ∉ take (span_not_gt s) s)
  /\ (drop (span_not_gt s) s = []
      \/ exists rest, drop (span_not_gt s) s = GT :: rest).
Proof.
  induction s as [|c s [IHt IHd]]; simpl.
  - split; [apply not_elem_of_nil | by left].
  - destruct (N.eqb_spec c GT) as [-> | Hc]; simpl.
    + split; [apply not_elem_of_nil | right; by eexists].
    + split; [| done]. rewrite not_elem_of_cons. split; [congruence | done].
Qed.

(** *** Markup-like tags *)

Lemma match_tag_some (s : str) (k : nat) :
  match_tag s = Some k ->
  exists tag, tag_prefix tag s /\ length tag = k.
Proof.
  destruct s as [|c s]; simpl; [done |].
  destruct (N.eqb_spec c LT) as [-> | _]; [| done].
  destruct (span_not_gt_split s) as [Hbody Hrest].
  destruct (span_not_gt s) as [|n] eqn:Hn; [done |].
  destruct Hrest as [-> | [rest Hrest]]; [done |].
  rewrite Hrest. intros [= <-].
  exists (LT :: take (S n) s ++ [GT]). split.
  - exists (take (S n) s), rest. repeat split; try done.
    + destruct s; [by rewrite drop_nil in Hrest | done].
    + rewrite <- (take_drop (S n) s) at 1. rewrite Hrest.
      simpl. by rewrite <- app_assoc.
  - assert (Hle : S n <= length s).
    { destruct (decide (S n <= length s)); [done |].
      rewrite drop_ge in Hrest by lia. done. }
    cbn [length]. rewrite length_app, length_take_le by done.
    cbn [length]. lia.
Qed.

Lemma match_tag_none (s tag : str) :
  match_tag s = None -> ~ tag_prefix tag s.
Proof.
  intros Hnone (body & rest & Hne & Hgt & -> & ->). revert Hnone.
  cbn [app]. rewrite <- app_assoc. cbn [app].
  unfold match_tag. rewrite N.eqb_refl. cbv zeta.
  rewrite span_not_gt_app by done.
  destruct (length body) as [|n] eqn:Hlen; [by destruct body |].
  by rewrite <- Hlen, drop_app_length.
Qed.

(** The first substitution removes the tags. *)
Lemma re_sub_tags (s : str) : tags_removed s (re_sub match_tag [] s).
Proof.
  unfold re_sub.
  induction s as [s IH] using (induction_ltof1 _ (@length N)).
  unfold ltof in IH. destruct s as [|c s]; [constructor |].
  cbn [re_sub_from]. destruct (match_tag (c :: s)) as [k |] eqn:Hk.
  - destruct (match_tag_some _ _ Hk) as (tag & Htag & Hlen).
    pose proof Htag as (body & rest & Hne & Hgt & Heq & Hs).
    destruct k as [|k]; [by subst tag |].
    rewrite re_sub_from_skip by done. simpl app.
    assert (Hdrop : drop k s = rest).
    { subst tag. simpl in Hs, Hlen. injection Hs as -> ->.
      injection Hlen as <-. by rewrite drop_app_length. }
    rewrite Hdrop, Hs. apply tags_removed_tag; [by rewrite <- Hs |].
    apply IH. rewrite Hs, length_app. subst tag. simpl. lia.
  - apply tags_removed_keep; [intros tag; by apply match_tag_none |].
    apply IH. simpl. lia.
Qed.

Lemma app_gt_inj (body body' rest rest' : str) :
  GT ∉ body -> GT ∉ body' ->
  body ++ GT :: rest = body' ++ GT :: rest' ->
  body = body' /\ rest = rest'.
Proof.
  revert body'; induction body as [|b body IH]; intros [|b' body'];
    rewrite ?not_elem_of_cons; simpl.
  - intros _ _ [= ->]. done.
  - intros _ [Hb _] [= <-]. done.
  - intros [Hb _] _ [= ->]. done.
  - intros [_ Hbody] [_ Hbody'] [= -> Heq].
    destruct (IH body' Hbody Hbody' Heq) as [-> ->]. done.
Qed.

(** Where a tag begins there is only one. *)
Lemma tag_prefix_unique (tag tag' rest rest' : str) :
  tag_prefix tag (tag ++ rest) ->
  tag_prefix tag' (tag' ++ rest') ->
  tag ++ rest = tag' ++ rest' ->
  tag = tag' /\ rest = rest'.
Proof.
  intros (body & r & _ & Hgt & -> & _) (body' & r' & _ & Hgt' & -> & _).
  simpl. rewrite <- !app_assoc. simpl. intros [= Heq].
  destruct (app_gt_inj _ _ _ _ Hgt Hgt' Heq) as [-> ->]. done.
Qed.

(** [tags_removed] describes one output for each input. *)
Lemma tags_removed_functional (s out out' : str) :
  tags_removed s out -> tags_removed s out' -> out = out'.
Proof.
  intros Hout. revert out'.
  induction Hout as [| tag rest out Htag _ IH | c s out Hno _ IH];
    intros out' Hout'.
  - inversion Hout' as [| tag rest ? Htag _ Heq |]; [done |].
    destruct Htag as (body & r & _ & _ & -> & _). discriminate.
  - remember (tag ++ rest) as s eqn:Hs.
    destruct Hout' as [| tag' rest' out' Htag' Hout' | c s out' Hno _].
    + destruct Htag as (body & r & _ & _ & -> & _). discriminate.
    + rewrite Hs in Htag.
      destruct (tag_prefix_unique _ _ _ _ Htag Htag' (eq_sym Hs)) as [-> ->].
      by apply IH.
    + by destruct (Hno tag).
  - remember (c :: s) as s0 eqn:Hs.
    destruct Hout' as [| tag' rest' out' Htag' _ | c' s' out' _ Hout'].
    + discriminate.
    + by destruct (Hno tag').
    + injection Hs as -> ->. f_equal. by apply IH.
Qed.

(** *** [sanitize_input] *)

Lemma angle_brackets_disallowed {db : UnicodeDB} :
  in_whitelist LT = false /\ in_whitelist GT = false.
Proof. split; reflexivity. Qed.

Lemma sanitize_input_str {db : UnicodeDB} (t : str) :
  sanitize_input (PyStr t)
  = Logged [] (Return (strip (List.filter in_whitelist
                                (re_sub match_tag [] t)))).
Proof.
  unfold sanitize_input, try_except. cbn. by rewrite re_sub_disallowed.
Qed.

(** The whitelist of the regular expression is the one the design
    document lists. *)
Lemma in_whitelist_spec {db : UnicodeDB} (c : N) :
  in_whitelist c = true <-> whitelisted c.
Proof.
  unfold in_whitelist, whitelisted, word_character.
  rewrite !orb_true_iff, N.eqb_eq, bool_decide_eq_true.
  change (N_of_ascii "_") with 95%N.
  change listed_punctuation with punctuation. tauto.
Qed.

#[local] Instance whitelisted_dec {db : UnicodeDB} (c : N) :
  Decision (whitelisted c).
Proof.
  destruct (in_whitelist c) eqn:Hc.
  - left. by apply in_whitelist_spec.
  - right. intros Hw%in_whitelist_spec. congruence.
Defined.

Lemma filter_whitelisted {db : UnicodeDB} (s : str) :
  filter whitelisted s = List.filter in_whitelist s.
Proof.
  induction s as [|c s IH]; [done |]. rewrite filter_cons. cbn [List.filter].
  destruct (decide (whitelisted c)) as [Hc | Hc].
  - apply in_whitelist_spec in Hc. by rewrite Hc, IH.
  - destruct (in_whitelist c) eqn:Hw; [| done].
    by apply in_whitelist_spec in Hw.
Qed.

(** The ASCII part of the whitelist, character by character. *)
Lemma whitelisted_ascii {db : UnicodeDB} (c : N) :
  (c < 128)%N -> (whitelisted c <-> c ∈ ascii_whitelist).
Proof.
  intros Hc. rewrite <- in_whitelist_spec.
  assert (Hin : c ∈ (N.of_nat <$> seq 0 128)).
  { apply list_elem_of_fmap. exists (N.to_nat c).
    split; [by rewrite N2Nat.id |]. apply list_elem_of_In, in_seq. lia. }
  assert (Hall : forallb
            (fun c => Bool.eqb (in_whitelist c)
                        (bool_decide (c ∈ ascii_whitelist)))
            (N.of_nat <$> seq 0 128) = true) by (vm_compute; reflexivity).
  rewrite forallb_forall in Hall.
  specialize (Hall c (proj1 (list_elem_of_In _ _) Hin)).
  apply eqb_prop in Hall. rewrite Hall. apply bool_decide_eq_true.
Qed.

(** C10. [sanitize_input] returns a string on every input and never
    raises. On a string [t] the result [s] is obtained in three steps:
    the tags [<...>] of [t] are removed, giving [u]; of [u] exactly the
    whitelisted characters are kept, that is the word characters
    (alphanumerics and the underscore), white space and the punctuation
    [- . , ! ? ; : ( ) { } [ ]]; and what is kept is [s] with white
    space only before and after it, [s] itself neither starting nor
    ending with white space. The result holds whitelisted characters
    only and no angle bracket. Among the ASCII characters the whitelist
    holds the letters, the digits, the underscore, the listed
    punctuation and the ASCII white space, and nothing else. On [None]
    the result is the empty string; on any other object the
    [ValueError] raised inside is caught and logged, and the empty
    string is returned. *)
Theorem sanitize_input_never_fails {db : UnicodeDB} (text : object) :
  (exists s,
     outcome (sanitize_input text) = Return s
     /\ Forall whitelisted s
     /\ (LT ∉ s) /\ (GT ∉ s)
     /\ trimmed s
     /\ match text with
        | PyStr t =>
            (exists u p q,
                tags_removed t u
                /\ filter whitelisted u = p ++ s ++ q
                /\ whitespace_only p /\ whitespace_only q)
            /\ records (sanitize_input text) = []
        | PyNone => s = [] /\ records (sanitize_input text) = []
        | PyInt _ | PyDict _ =>
            s = [] /\ records (sanitize_input text) = [not_a_string_record]
        end)
  /\ (forall c, (c < 128)%N -> (whitelisted c <-> c ∈ ascii_whitelist)).
Proof.
  split; [| apply whitelisted_ascii].
  assert (Hnil : trimmed []).
  { split; intros c r Heq; [discriminate |]. by destruct r. }
  destruct text as [| t | z | d];
    try (exists []; split; [reflexivity |]; split; [constructor |];
         split; [apply not_elem_of_nil |]; split; [apply not_elem_of_nil |];
         split; [exact Hnil | split; reflexivity]).
  set (u := re_sub match_tag [] t).
  exists (strip (List.filter in_whitelist u)).
  rewrite sanitize_input_str. cbn [outcome records]. fold u.
  assert (Hall : Forall (fun c => in_whitelist c = true)
                   (strip (List.filter in_whitelist u))).
  { apply Forall_forall. intros c Hc%strip_elem.
    apply list_elem_of_In, filter_In in Hc as [_ Hc]. exact Hc. }
  destruct angle_brackets_disallowed as [Hlt Hgt].
  split; [done | split; [| split; [| split; [| split]]]].
  - eapply Forall_impl; [exact Hall |]. intros c. apply in_whitelist_spec.
  - intros Hin. rewrite Forall_forall in Hall.
    specialize (Hall _ Hin). congruence.
  - intros Hin. rewrite Forall_forall in Hall.
    specialize (Hall _ Hin). congruence.
  - apply strip_fixed_trimmed, strip_idem.
  - split; [| done].
    destruct (strip_split (List.filter in_whitelist u))
      as (p & q & Heq & Hp & Hq).
    exists u, p, q. split; [apply re_sub_tags |].
    rewrite filter_whitelisted. done.
Qed.

Lemma sanitize_input_never_fails_witness :
  (64 < 128)%N
  /\ ~ whitelisted (db := ascii_only_db) 64
  /\ exists s,
       outcome (sanitize_input (db := ascii_only_db)
                  (PyStr (lit " <b>fix</b> my @router! "))) = Return s
       /\ trimmed s
       /\ Forall (whitelisted (db := ascii_only_db)) s.
Proof.
  destruct (@sanitize_input_never_fails ascii_only_db
              (PyStr (lit " <b>fix</b> my @router! ")))
    as [(s & Hout & Hall & _ & _ & Htrim & _) Hascii].
  split; [reflexivity | split].
  - intros Hw. apply (Hascii 64%N) in Hw; [| reflexivity].
    apply (bool_decide_eq_true_2 _) in Hw. vm_compute in Hw. discriminate.
  - by exists s.
Defined.

(** The sanitizer on a text with tags, stray brackets, symbols outside
    the whitelist and surrounding blanks; and on an object that is not
    a string. *)
Example sanitize_input_examples :
  outcome (sanitize_input (db := ascii_only_db)
             (PyStr (lit "  a<b>c <<d>e> <> f<g @#$ [ok]! <  ")))
  = Return (lit "ac e  fg  [ok]!")
  /\ sanitize_input (db := ascii_only_db) (PyInt 42)
     = Logged [not_a_string_record] (Return [])
  /\ sanitize_input (db := ascii_only_db) PyNone = Logged [] (Return []).
Proof. repeat split; vm_compute; reflexivity. Qed.

(** * Further properties of the code *)

(** ** The length gate and the assembler *)

Lemma categorize_question_loaded (self : ModelService) (t : str) :
  model_loaded self = true ->
  strip t <> [] ->
  exists c, categories !! (length t mod 4) = Some c
            /\ c ∈ categories
            /\ categorize_question self t = Return c.
Proof.
  intros Hloaded Hblank%truthy_true.
  destruct (lookup_lt_is_Some_2 categories (length t mod 4)) as [c Hc].
  { rewrite categories_length. apply Nat.mod_upper_bound. lia. }
  exists c. split; [done | split].
  - by eapply list_elem_of_lookup_2.
  - unfold categorize_question.
    by rewrite Hloaded, Hblank, categories_length, Hc.
Qed.

Lemma known_category_bundle (c : str) :
  c ∈ categories ->
  _generate_answer c <> generic_answer
  /\ length (_generate_documentation_links c) = 2
  /\ length (_generate_troubleshooting_steps c) = 3.
Proof.
  unfold categories. rewrite !elem_of_cons, elem_of_nil.
  intros [-> | [-> | [-> | [-> | []]]]];
    (split; [vm_compute; discriminate | split; vm_compute; reflexivity]).
Qed.

Lemma length_gate_short (q : str) :
  length (strip q) < 3 ->
  Services.validate_question q
  = Logged [{| levelname := WARNING;
               msg := lit "Question too short for meaningful analysis";
               args := [] |}] (Return false).
Proof.
  intros Hshort%Nat.ltb_lt. unfold Services.validate_question.
  by rewrite Hshort, orb_true_r.
Qed.

Lemma length_gate_long (q : str) :
  3 <= length (strip q) -> 1000 < length q ->
  Services.validate_question q
  = Logged [{| levelname := WARNING;
               msg := lit "Question exceeds maximum length of 1000 characters";
               args := [] |}] (Return false).
Proof.
  intros Hlong Hbig%Nat.ltb_lt. unfold Services.validate_question.
  assert (truthy q = true) as ->.
  { apply truthy_true. intros ->. simpl in Hlong. lia. }
  apply Nat.ltb_ge in Hlong. by rewrite Hlong, Hbig.
Qed.

Lemma length_gate_fits (q : str) :
  3 <= length (strip q) -> length q <= 1000 ->
  Services.validate_question q = Logged [] (Return true).
Proof.
  intros Hlong Hfit%Nat.ltb_ge. unfold Services.validate_question.
  assert (truthy q = true) as ->.
  { apply truthy_true. intros ->. simpl in Hlong. lia. }
  apply Nat.ltb_ge in Hlong. by rewrite Hlong, Hfit.
Qed.

Lemma length_gate_accepts_inv (q : str) :
  outcome (Services.validate_question q) = Return true ->
  3 <= length (strip q) /\ length q <= 1000.
Proof.
  destruct (Nat.lt_ge_cases (length (strip q)) 3) as [Hshort | Hlong];
    [rewrite (length_gate_short q Hshort); intros [=] |].
  destruct (Nat.lt_ge_cases 1000 (length q)) as [Hbig | Hfit];
    [rewrite (length_gate_long q Hlong Hbig); intros [=] | done].
Qed.

(** The length gate accepts exactly the texts whose trimmed form has at
    least 3 characters and whose full form has at most 1000; an accepted
    text therefore has between 3 and 1000 characters. A refusal is a
    [False] result with one warning, never an exception. *)
Theorem length_gate_bounds (q : str) :
  (outcome (Services.validate_question q) = Return true
   <-> 3 <= length (strip q) /\ length q <= 1000)
  /\ (outcome (Services.validate_question q) = Return true ->
      3 <= length q <= 1000
      /\ records (Services.validate_question q) = [])
  /\ (outcome (Services.validate_question q) <> Return true ->
      outcome (Services.validate_question q) = Return false
      /\ exists r, records (Services.validate_question q) = [r]
                   /\ levelname r = WARNING).
Proof.
  pose proof (strip_length q) as Hle.
  destruct (Nat.lt_ge_cases (length (strip q)) 3) as [Hshort | Hlong];
    [rewrite (length_gate_short q Hshort) |
     destruct (Nat.lt_ge_cases 1000 (length q)) as [Hbig | Hfit];
     [rewrite (length_gate_long q Hlong Hbig) |
      rewrite (length_gate_fits q Hlong Hfit)]];
    cbn [outcome records].
  - split; [split; [intros [=] | lia] | split; [intros [=] |]].
    intros _. split; [done | by eexists].
  - split; [split; [intros [=] | lia] | split; [intros [=] |]].
    intros _. split; [done | by eexists].
  - split; [split; [lia | done] | split; [intros _; split; [lia | done] |]].
    intros Hne. by destruct Hne.
Qed.

Lemma length_gate_bounds_witness :
  outcome (Services.validate_question (lit "  why is it slow? "))
  = Return true
  /\ 3 <= length (lit "  why is it slow? ") <= 1000.
Proof.
  split; [reflexivity |].
  apply (length_gate_bounds (lit "  why is it slow? ")). reflexivity.
Defined.

Lemma process_question_loaded (self : QuestionProcessor)
    (question_data : QuestionModel) :
  model_loaded (model_service self) = true ->
  strip (question question_data) <> [] ->
  exists c,
    categories !! (length (question question_data) mod 4) = Some c
    /\ c ∈ categories
    /\ process_question self question_data
       = Logged
           [{| levelname := INFO;
               msg := lit "Processing question: "
                      ++ take 50 (question question_data) ++ lit "...";
               args := [] |}]
           (Return {| category := c;
                      answer := _generate_answer c;
                      documentation_links := _generate_documentation_links c;
                      troubleshooting_steps :=
                        _generate_troubleshooting_steps c |}).
Proof.
  intros Hloaded Hblank.
  destruct (categorize_question_loaded _ _ Hloaded Hblank)
    as (c & Hc & Hin & Hret).
  exists c. split; [done | split; [done |]].
  apply truthy_true in Hblank.
  unfold process_question, try_except, mbind, logged_bind, lift.
  rewrite Hblank. cbn. rewrite Hret. reflexivity.
Qed.

(** With the model loaded, a question that is not blank is answered
    with the bundle of the category at index [length mod 4]: the answer,
    two links and three steps the lookups give for it, never the generic
    answer. The only log record is the INFO line, which quotes at most
    the first 50 characters of the question. *)
Theorem process_question_bundle (self : QuestionProcessor)
    (question_data : QuestionModel) :
  model_loaded (model_service self) = true ->
  strip (question question_data) <> [] ->
  exists c,
    categories !! (length (question question_data) mod 4) = Some c
    /\ process_question self question_data
       = Logged
           [{| levelname := INFO;
               msg := lit "Processing question: "
                      ++ take 50 (question question_data) ++ lit "...";
               args := [] |}]
           (Return {| category := c;
                      answer := _generate_answer c;
                      documentation_links := _generate_documentation_links c;
                      troubleshooting_steps :=
                        _generate_troubleshooting_steps c |})
    /\ _generate_answer c <> generic_answer
    /\ length (_generate_documentation_links c) = 2
    /\ length (_generate_troubleshooting_steps c) = 3.
Proof.
  intros Hloaded Hblank.
  destruct (process_question_loaded self question_data Hloaded Hblank)
    as (c & Hc & Hin & Heq).
  exists c. split; [done | split; [done |]]. by apply known_category_bundle.
Qed.

Lemma process_question_bundle_witness :
  model_loaded loaded_service = true
  /\ strip (lit "is my disk full?") <> []
  /\ outcome (process_question {| model_service := loaded_service |}
                {| question := lit "is my disk full?"; user_id := None |})
     = Return {| category := lit "networking";
                 answer := _generate_answer (lit "networking");
                 documentation_links :=
                   _generate_documentation_links (lit "networking");
                 troubleshooting_steps :=
                   _generate_troubleshooting_steps (lit "networking") |}.
Proof.
  assert (Hne : strip (lit "is my disk full?") <> [])
    by (vm_compute; discriminate).
  split; [reflexivity | split; [exact Hne |]].
  destruct (process_question_bundle {| model_service := loaded_service |}
              {| question := lit "is my disk full?"; user_id := None |}
              eq_refl Hne) as (c & Hc & -> & _).
  vm_compute in Hc. injection Hc as <-. reflexivity.
Defined.

(** A question the length gate accepts is never refused as blank: with
    the model loaded the assembler answers it with a bundle for one of
    the four categories. *)
Theorem length_gate_then_process_question (self : QuestionProcessor)
    (question_data : QuestionModel) :
  model_loaded (model_service self) = true ->
  outcome (Services.validate_question (question question_data))
  = Return true ->
  exists r,
    outcome (process_question self question_data) = Return r
    /\ category r ∈ categories
    /\ answer r = _generate_answer (category r).
Proof.
  intros Hloaded Hgate.
  apply length_gate_accepts_inv in Hgate as [Hlong _].
  assert (Hblank : strip (question question_data) <> []).
  { intros Hnil. rewrite Hnil in Hlong. simpl in Hlong. lia. }
  destruct (process_question_loaded self question_data Hloaded Hblank)
    as (c & Hc & Hin & ->).
  eexists. split; [reflexivity |]. cbn. split; done.
Qed.

Lemma length_gate_then_process_question_witness :
  model_loaded loaded_service = true
  /\ outcome (Services.validate_question (lit "why is the vm slow"))
     = Return true
  /\ exists r,
       outcome (process_question {| model_service := loaded_service |}
                  {| question := lit "why is the vm slow"; user_id := None |})
       = Return r
       /\ category r ∈ categories
       /\ answer r = _generate_answer (category r).
Proof.
  split; [reflexivity | split; [reflexivity |]].
  apply (length_gate_then_process_question
           {| model_service := loaded_service |}
           {| question := lit "why is the vm slow"; user_id := None |});
    reflexivity.
Defined.

Lemma process_question_blank (self : QuestionProcessor)
    (question_data : QuestionModel) :
  strip (question question_data) = [] ->
  outcome (process_question self question_data) = Raise internal_error.
Proof.
  intros Hblank%truthy_false.
  unfold process_question, try_except, mbind, logged_bind.
  by rewrite Hblank.
Qed.

Lemma process_question_unloaded (self : QuestionProcessor)
    (question_data : QuestionModel) :
  model_loaded (model_service self) = false ->
  outcome (process_question self question_data) = Raise internal_error.
Proof.
  intros Hunloaded.
  destruct (strip (question question_data)) eqn:Hblank;
    [by apply process_question_blank |].
  unfold process_question, try_except, mbind, logged_bind, lift,
    categorize_question.
  by rewrite Hblank, Hunloaded.
Qed.

(** [process_question] fails exactly when the model is not loaded or the
    question is blank, and every failure reaches the caller as the same
    500 "Internal server error": no other status code and no other
    detail ever leaves the function. *)
Theorem process_question_fails_iff (self : QuestionProcessor)
    (question_data : QuestionModel) :
  (outcome (process_question self question_data) = Raise internal_error
   <-> model_loaded (model_service self) = false
       \/ strip (question question_data) = [])
  /\ (forall e, outcome (process_question self question_data) = Raise e ->
                e = internal_error).
Proof.
  split; [| intros e; apply process_question_raises_only_500].
  split.
  - intros Hfail.
    destruct (model_loaded (model_service self)) eqn:Hloaded; [| by left].
    right. destruct (decide (strip (question question_data) = []))
      as [Hblank | Hblank]; [done |].
    destruct (process_question_loaded self question_data Hloaded Hblank)
      as (c & _ & _ & Heq).
    rewrite Heq in Hfail. discriminate.
  - intros [Hunloaded | Hblank].
    + by apply process_question_unloaded.
    + by apply process_question_blank.
Qed.

(** [load_model] switches the service to loaded and keeps its name,
    logging one INFO record. Before it, a fresh service refuses every
    text with 503; after it, every text that is not blank gets one of
    the four categories. *)
Theorem load_model_enables_classifier (self : ModelService) (t : str) :
  exists self',
    load_model self
    = Logged [{| levelname := INFO;
                 msg := lit "Model " ++ model_name self
                        ++ lit " loaded successfully";
                 args := [] |}] (Return self')
    /\ model_loaded self' = true
    /\ model_name self' = model_name self
    /\ categorize_question ModelService_init t
       = Raise (HTTPException 503 (lit "Model not available"))
    /\ (strip t <> [] ->
        exists c, c ∈ categories /\ categorize_question self' t = Return c).
Proof.
  eexists. split; [reflexivity |]. cbn. repeat split.
  intros Hblank.
  destruct (categorize_question_loaded
              {| model_loaded := true; model_name := model_name self |}
              t eq_refl Hblank) as (c & _ & Hin & Hret).
  by exists c.
Qed.

Lemma load_model_enables_classifier_witness :
  strip (lit "disk quota") <> []
  /\ exists self',
       outcome (load_model ModelService_init) = Return self'
       /\ categorize_question self' (lit "disk quota")
          = Return (lit "storage").
Proof.
  assert (Hne : strip (lit "disk quota") <> []) by (vm_compute; discriminate).
  split; [exact Hne |].
  destruct (load_model_enables_classifier ModelService_init
              (lit "disk quota")) as (self' & Heq & _ & _ & _ & Hcat).
  exists self'. split; [by rewrite Heq |].
  injection Heq as <-. reflexivity.
Defined.

(** ** The validator and the documentation helper *)

(** [validate_question] either returns its argument unchanged, having
    logged at most one warning, or raises an [HTTPException] with status
    400. In the second case exactly one ERROR record is logged and the
    detail sent to the caller is the message of that record. *)
Theorem validate_question_outcomes {db : UnicodeDB}
    (self : QuestionValidator) (value : str) :
  (outcome (validate_question self value) = Return value
   /\ length (records (validate_question self value)) <= 1
   /\ Forall (fun r => levelname r = WARNING)
        (records (validate_question self value)))
  \/ (exists detail,
        outcome (validate_question self value)
        = Raise (HTTPException 400 detail)
        /\ records (validate_question self value)
           = [{| levelname := ERROR; msg := lit "Validation error: %s";
                 args := [detail] |}]).
Proof.
  right. destruct (decide (strip value = [])) as [Hblank | Hblank].
  - eexists. by rewrite validate_question_blank.
  - eexists. by rewrite validate_question_nonblank.
Qed.

(** As the class has it, [validate_question] returns for no text at
    all: a blank text is refused with 400 "Question cannot be empty",
    and every other text, whatever it contains and whatever words the
    validator instance is configured with, is refused with 400 and the
    text of the [AttributeError] for [prohibited_words] as detail. *)
Theorem validate_question_never_returns {db : UnicodeDB}
    (self : QuestionValidator) (value : str) :
  exists detail,
    outcome (validate_question self value) = Raise (HTTPException 400 detail)
    /\ (strip value = [] -> detail = lit "Question cannot be empty")
    /\ (strip value <> [] ->
        detail
        = lit "type object 'QuestionValidator' has no attribute 'prohibited_words'").
Proof.
  destruct (decide (strip value = [])) as [Hblank | Hblank].
  - exists (lit "Question cannot be empty").
    rewrite validate_question_blank by done.
    split; [reflexivity | split; [reflexivity | contradiction]].
  - exists missing_prohibited_words.
    rewrite validate_question_nonblank by done.
    split; [reflexivity | split; [contradiction | reflexivity]].
Qed.

Lemma validate_question_never_returns_witness :
  strip (lit "how do I reset my router") <> []
  /\ outcome (validate_question (db := ascii_only_db) QuestionValidator_init
                (lit "how do I reset my router"))
     = Raise (HTTPException 400
                (lit "type object 'QuestionValidator' has no attribute 'prohibited_words'")).
Proof.
  assert (Hne : strip (lit "how do I reset my router") <> [])
    by (vm_compute; discriminate).
  split; [exact Hne |].
  destruct (@validate_question_never_returns ascii_only_db
              QuestionValidator_init (lit "how do I reset my router"))
    as (detail & Hout & _ & Hdetail).
  by rewrite Hout, (Hdetail Hne).
Defined.

(** [get_documentation_links] never raises. A category with an entry in
    the helper's table gives one record whose [url] is that entry and
    whose [title] names the category; a category without one gives the
    empty sequence and one ERROR record naming the category. *)
Theorem get_documentation_links_total (self : DocumentationHelper)
    (category : str) :
  exists l,
    outcome (get_documentation_links self category) = Return l
    /\ length l <= 1
    /\ (l = [] <-> helper_links self !! category = None)
    /\ (forall d, d ∈ l ->
          d !! lit "title" = Some (lit "Documentation for " ++ category)
          /\ d !! lit "url" = helper_links self !! category)
    /\ (l = [] ->
        records (get_documentation_links self category)
        = [{| levelname := ERROR;
              msg := lit "Error retrieving documentation links: %s";
              args := [lit "Category '" ++ category
                       ++ lit "' not found in documentation links"] |}]).
Proof.
  unfold get_documentation_links, try_except.
  destruct (helper_links self !! category) as [url |] eqn:Hurl; cbn.
  - eexists. split; [reflexivity |]. cbn. split; [lia |].
    split; [split; intros [=] |]. split; [| intros [=]].
    intros d ->%list_elem_of_singleton. split.
    + apply lookup_insert_eq.
    + rewrite lookup_insert_ne by (vm_compute; discriminate).
      apply lookup_insert_eq.
  - exists []. split; [reflexivity |]. cbn. split; [lia |].
    split; [done |]. split; [| done].
    intros d Hd. by apply elem_of_nil in Hd.
Qed.

(** ** [format_response] *)

(** [format_response] never raises and always hands back the content it
    was given, but it reports every category as "unknown" with no
    documentation, the keys of the helper's table included: the
    validator it calls first refuses every text, and that refusal is
    caught and logged. Two ERROR records are written, the validator's
    and one repeating its detail after the status code. *)
Theorem format_response_always_unknown {db : UnicodeDB}
    (content category : str) :
  outcome (format_response content category)
  = Return {| fr_content := content; fr_category := lit "unknown";
              fr_documentation := [] |}
  /\ exists detail,
       records (format_response content category)
       = [{| levelname := ERROR; msg := lit "Validation error: %s";
             args := [detail] |};
          {| levelname := ERROR; msg := lit "Error formatting response: %s";
             args := [lit "400: " ++ detail] |}].
Proof.
  unfold format_response, try_except, mbind, logged_bind. cbv zeta.
  destruct (decide (strip category = [])) as [Hblank | Hblank].
  - rewrite (validate_question_blank _ _ Hblank).
    split; [reflexivity | eexists; reflexivity].
  - rewrite (validate_question_nonblank _ _ Hblank).
    split; [reflexivity | eexists; reflexivity].
Qed.

(** ** More about [sanitize_input] of [utils.py] *)

Lemma lstrip_suffix (s : str) : exists p, s = p ++ lstrip s.
Proof.
  induction s as [|c s [p IH]]; simpl; [by exists [] |].
  destruct (isspace c); [| by exists []].
  exists (c :: p). simpl. by rewrite <- IH.
Qed.

Lemma rstrip_prefix (s : str) : exists q, s = rstrip s ++ q.
Proof.
  unfold rstrip. destruct (lstrip_suffix (rev s)) as [p Hp].
  exists (rev p). rewrite <- rev_app_distr, <- Hp. by rewrite rev_involutive.
Qed.

(** Trimming keeps a contiguous part of the text. *)
Lemma strip_substring (s : str) : substring (strip s) s.
Proof.
  unfold substring, strip. destruct (lstrip_suffix s) as [p Hp].
  destruct (rstrip_prefix (lstrip s)) as [q Hq].
  exists p, q. by rewrite <- Hq.
Qed.

Lemma substring_sublist (sub s : str) : substring sub s -> sublist sub s.
Proof.
  intros (a & b & ->). apply sublist_inserts_l, sublist_inserts_r. done.
Qed.

Lemma filter_sublist (f : N -> bool) (s : str) : sublist (List.filter f s) s.
Proof.
  induction s as [|c s IH]; simpl; [constructor |].
  destruct (f c); by constructor.
Qed.

Lemma filter_all (f : N -> bool) (s : str) :
  Forall (fun c => f c = true) s -> List.filter f s = s.
Proof.
  induction 1 as [|c s Hc _ IH]; simpl; [done |]. by rewrite Hc, IH.
Qed.

Lemma tags_removed_sublist (s out : str) :
  tags_removed s out -> sublist out s.
Proof.
  induction 1 as [| tag rest out _ _ IH | c s out _ _ IH].
  - constructor.
  - by apply sublist_inserts_l.
  - by constructor.
Qed.

(** A text without [<] holds no tag: the first substitution leaves it
    as it is. *)
Lemma re_sub_tags_without_lt (s : str) :
  LT ∉ s -> re_sub match_tag [] s = s.
Proof.
  unfold re_sub. induction s as [|c s IH]; [done |].
  rewrite not_elem_of_cons. intros [Hc Hs]. cbn [re_sub_from match_tag].
  destruct (N.eqb_spec c LT) as [-> | _]; [done |].
  by rewrite IH.
Qed.

(** What [sanitize_input] returns on a string: whitelisted characters
    only, and nothing left to trim. *)
Lemma sanitized_clean {db : UnicodeDB} (t : str) :
  let s := strip (List.filter in_whitelist (re_sub match_tag [] t)) in
  Forall (fun c => in_whitelist c = true) s /\ strip s = s.
Proof.
  cbv zeta. split; [| apply strip_idem].
  apply Forall_forall. intros c Hc%strip_elem.
  apply list_elem_of_In, filter_In in Hc as [_ Hc]. exact Hc.
Qed.

Lemma clean_is_fixed {db : UnicodeDB} (t : str) :
  Forall (fun c => in_whitelist c = true) t -> strip t = t ->
  sanitize_input (PyStr t) = Logged [] (Return t).
Proof.
  intros Hall Htrim. rewrite sanitize_input_str.
  assert (Hlt : LT ∉ t).
  { intros Hin. rewrite Forall_forall in Hall. specialize (Hall _ Hin).
    destruct angle_brackets_disallowed as [Hlt _]. congruence. }
  by rewrite re_sub_tags_without_lt, filter_all, Htrim.
Qed.

(** Sanitizing only deletes: the result is a subsequence of the text it
    was given, so it is never longer, and no character is inserted,
    rewritten or moved. *)
Theorem sanitize_input_only_deletes {db : UnicodeDB} (t : str) :
  exists s,
    sanitize_input (PyStr t) = Logged [] (Return s)
    /\ sublist s t
    /\ length s <= length t.
Proof.
  eexists. split; [apply sanitize_input_str |].
  assert (Hsub : sublist (strip (List.filter in_whitelist
                                   (re_sub match_tag [] t))) t).
  { etransitivity; [apply substring_sublist, strip_substring |].
    etransitivity; [apply filter_sublist |].
    apply tags_removed_sublist, re_sub_tags. }
  split; [exact Hsub | by apply sublist_length].
Qed.

(** Sanitizing twice is the same as sanitizing once. *)
Theorem sanitize_input_idempotent {db : UnicodeDB} (t s : str) :
  outcome (sanitize_input (PyStr t)) = Return s ->
  sanitize_input (PyStr s) = Logged [] (Return s).
Proof.
  rewrite sanitize_input_str. cbn [outcome]. intros [= <-].
  destruct (sanitized_clean t) as [Hall Htrim]. by apply clean_is_fixed.
Qed.

Lemma sanitize_input_idempotent_witness :
  outcome (sanitize_input (db := ascii_only_db)
             (PyStr (lit " <b>fix</b> my @router! ")))
  = Return (lit "fix my router!")
  /\ sanitize_input (db := ascii_only_db) (PyStr (lit "fix my router!"))
     = Logged [] (Return (lit "fix my router!")).
Proof.
  assert (Hout : outcome (sanitize_input (db := ascii_only_db)
                            (PyStr (lit " <b>fix</b> my @router! ")))
                 = Return (lit "fix my router!")) by reflexivity.
  split; [exact Hout |].
  exact (@sanitize_input_idempotent ascii_only_db _ _ Hout).
Defined.

(** The texts [sanitize_input] returns unchanged are exactly those made
    of whitelisted characters with no white space at either end. *)
Theorem sanitize_input_fixed_points {db : UnicodeDB} (t : str) :
  outcome (sanitize_input (PyStr t)) = Return t
  <-> Forall (fun c => in_whitelist c = true) t /\ strip t = t.
Proof.
  split.
  - rewrite sanitize_input_str. cbn [outcome]. intros [= Heq].
    destruct (sanitized_clean t) as [Hall Htrim]. cbv zeta in Hall, Htrim.
    rewrite Heq in Hall, Htrim. done.
  - intros [Hall Htrim]. by rewrite clean_is_fixed.
Qed.

(** Sanitizing, then validating: whatever object is given, the
    validator refuses the sanitized text as empty exactly when that text
    is the empty string. This is the case for [None], for every object
    that is not a string, and for a string of which nothing is left. *)
Theorem sanitize_then_validate_empty {db : UnicodeDB}
    (self : QuestionValidator) (text : object) :
  exists s,
    outcome (sanitize_input text) = Return s
    /\ (outcome (validate_question self s) = Raise empty_input <-> s = [])
    /\ ((forall t, text <> PyStr t) -> s = []).
Proof.
  assert (Hsplit : forall s : list N, strip s = s ->
            (outcome (validate_question self s) = Raise empty_input
             <-> s = [])).
  { intros s Htrim. split.
    - destruct (decide (strip s = [])) as [Hblank | Hblank].
      + intros _. by rewrite <- Htrim.
      + rewrite (validate_question_nonblank _ _ Hblank).
        intros Habs. vm_compute in Habs. discriminate.
    - intros ->. by rewrite validate_question_blank. }
  destruct text as [| t | z | d].
  - exists []. split; [reflexivity | split; [by apply Hsplit | done]].
  - eexists. rewrite sanitize_input_str. split; [reflexivity |].
    split; [apply Hsplit, strip_idem |].
    intros Hnot. by destruct (Hnot t).
  - exists []. split; [reflexivity | split; [by apply Hsplit | done]].
  - exists []. split; [reflexivity | split; [by apply Hsplit | done]].
Qed.

Lemma sanitize_then_validate_empty_witness :
  (forall t, PyInt 7 <> PyStr t)
  /\ outcome (sanitize_input (db := ascii_only_db) (PyInt 7)) = Return []
  /\ outcome (validate_question (db := ascii_only_db)
                QuestionValidator_init []) = Raise empty_input.
Proof.
  assert (Hnot : forall t : list N, PyInt 7 <> PyStr t) by (intros t [=]).
  split; [exact Hnot | split; [reflexivity |]].
  destruct (@sanitize_then_validate_empty ascii_only_db
              QuestionValidator_init (PyInt 7)) as (s & _ & Hiff & Hnil).
  rewrite (Hnil Hnot) in Hiff. by apply Hiff.
Defined.

(** ** main.py *)

(** A blank input text is refused with 400 "Input text cannot be empty",
    and that exception reaches the caller as raised: the handler logs it
    and raises it again. A refusal happens for blank texts only, and
    [process_data] raises nothing else. *)
Theorem process_data_blank_is_400 {up : Main.UnicodeUpper} (now : str)
    (request : Main.RequestData) :
  (strip (Main.input_text request) = [] ->
   Main.process_data now request
   = Logged [{| levelname := WARNING; msg := lit "Empty input received";
                args := [] |};
             {| levelname := ERROR;
                msg := lit "HTTP error: Input text cannot be empty";
                args := [] |}]
            (Raise (HTTPException 400 (lit "Input text cannot be empty"))))
  /\ (forall e, outcome (Main.process_data now request) = Raise e ->
        e = HTTPException 400 (lit "Input text cannot be empty")
        /\ strip (Main.input_text request) = []).
Proof.
  unfold Main.process_data, try_except, mbind, logged_bind.
  destruct (strip (Main.input_text request)) as [|c s] eqn:Hstrip.
  - split; [intros _ | intros e]; cbn [truthy negb]; rewrite orb_true_r; cbn.
    + reflexivity.
    + by intros [= <-].
  - assert (truthy (Main.input_text request) = true) as ->.
    { apply truthy_true. intros Hnil. by rewrite Hnil in Hstrip. }
    split; [intros [=] |]. intros e. cbn. intros [=].
Qed.

Lemma process_data_blank_is_400_witness :
  strip (lit "   ") = []
  /\ outcome (Main.process_data (up := {| Main.unicode_upper := id |})
                (lit "2024-01-01T00:00:00")
                {| Main.input_text := lit "   "; Main.options := None |})
     = Raise (HTTPException 400 (lit "Input text cannot be empty")).
Proof.
  split; [reflexivity |].
  destruct (@process_data_blank_is_400 {| Main.unicode_upper := id |}
              (lit "2024-01-01T00:00:00")
              {| Main.input_text := lit "   "; Main.options := None |})
    as [Hblank _].
  by rewrite Hblank.
Defined.

(** A text that is not blank is answered with status "success". The
    output announces the length of the text and shows at most the first
    50 characters of its upper-cased form, followed by three dots; the
    metadata carries the input length, the length of that output, the
    time of the call and the options as they were given. *)
Theorem process_data_success {up : Main.UnicodeUpper} (now : str)
    (request : Main.RequestData) :
  strip (Main.input_text request) <> [] ->
  exists r,
    outcome (Main.process_data now request) = Return r
    /\ Main.status r = lit "success"
    /\ Main.output r
       = lit "Processed "
         ++ Main.str_of_nat (length (Main.input_text request))
         ++ lit " characters: "
         ++ take 50 (Main.upper (Main.input_text request)) ++ lit "..."
    /\ Main.metadata r
       = Some {| Main.input_length := length (Main.input_text request);
                 Main.output_length := length (Main.output r);
                 Main.processed_at := now;
                 Main.metadata_options := Main.options request |}
    /\ length (Main.output r)
       <= 76 + length (Main.str_of_nat (length (Main.input_text request))).
Proof.
  intros Hblank.
  assert (Htext : truthy (Main.input_text request) = true).
  { apply truthy_true. intros Hnil. by rewrite Hnil in Hblank. }
  apply truthy_true in Hblank.
  unfold Main.process_data, try_except, mbind, logged_bind.
  rewrite Htext, Hblank. cbn [negb orb]. cbn [outcome records mret logged_ret].
  eexists. split; [reflexivity |]. cbn [Main.status Main.output Main.metadata].
  split; [done | split; [done | split; [done |]]].
  unfold slice_to. rewrite !length_app, length_take.
  change (length (lit "Processed ")) with 10.
  change (length (lit " characters: ")) with 13.
  change (length (lit "...")) with 3. lia.
Qed.

Lemma process_data_success_witness :
  strip (lit "hello world") <> []
  /\ exists r,
       outcome (Main.process_data (up := {| Main.unicode_upper := id |})
                  (lit "2024-01-01T00:00:00")
                  {| Main.input_text := lit "hello world";
                     Main.options := None |}) = Return r
       /\ Main.output r = lit "Processed 11 characters: HELLO WORLD...".
Proof.
  assert (Hne : strip (lit "hello world") <> []) by (vm_compute; discriminate).
  split; [exact Hne |].
  destruct (@process_data_success {| Main.unicode_upper := id |}
              (lit "2024-01-01T00:00:00")
              {| Main.input_text := lit "hello world"; Main.options := None |}
              Hne) as (r & Hout & _ & Houtput & _).
  exists r. split; [exact Hout |]. rewrite Houtput. reflexivity.
Defined.
